(** * Park-Spotter: the polling loop of [App.js]

    A shallow embedding of the [App] component of [src/App.js]: the
    asynchronous function [fetchSpots], the effects that run when the
    component mounts, the callbacks they register, and the background
    fetch task.

    JavaScript promises are embedded as a small monad that threads the
    local variables of the running function, collects the observable calls
    in a trace and carries the settlement (fulfilled or rejected).  What
    the network, the JSON parser and the modules under [./frontend] answer
    is an input of the model.  While mounting, each effect runs up to the
    first [await] of the asynchronous function it calls, and what is left
    of those functions runs after the last effect.  Afterwards an
    asynchronous call runs to its end before the next input is handled:
    the interleaving of two polls in flight is not part of the model. *)

From Stdlib Require Import List String ZArith QArith Bool Lia.
Import ListNotations.

Set Warnings "-register-all".

Local Open Scope string_scope.
Local Open Scope Z_scope.
Local Open Scope list_scope.

(** ** JavaScript values *)

(** The values [JSON.parse] can produce, plus [undefined].  Numbers are
    rationals: the counts of the feed are decimal literals. *)
Inductive JsValue : Type :=
| JUndefined
| JNull
| JBool (b : bool)
| JNumber (q : Q)
| JString (s : string)
| JArray (items : list JsValue)
| JObject (fields : list (string * JsValue)).

(** The literal [0] of [useState(0)] and [let spots = 0]. *)
Definition zero : JsValue := JNumber (inject_Z 0).

(** An integer literal of a response body. *)
Definition JInt (z : Z) : JsValue := JNumber (inject_Z z).

(** A non-negative integer, the range of an AvailabilityCount field. *)
Definition nonneg_integer (v : JsValue) : bool :=
  match v with
  | JNumber q => (Qden (Qred q) =? 1)%positive && (0 <=? Qnum (Qred q))
  | _ => false
  end.

(** What can be thrown or be the reason of a rejection. *)
Inductive JsError : Type :=
| NetworkError      (* fetch(...) rejects *)
| BodyError         (* response.text() rejects *)
| SyntaxError       (* JSON.parse throws *)
| TypeError         (* a property is read from null or undefined *)
| PushError         (* schedulePushNotification rejects *)
| TokenError.       (* registerForPushNotificationsAsync rejects *)

(** Own properties of an object, in order; the first binding of a key is
    the one the object holds. *)
Fixpoint lookup (name : string) (fields : list (string * JsValue)) : JsValue :=
  match fields with
  | [] => JUndefined
  | (k, v) :: rest => if String.eqb k name then v else lookup name rest
  end.

(** [data.name] for a name that no prototype defines (such as [free_spots]):
    a TypeError on [null] and [undefined], the own property of an object,
    [undefined] everywhere else. *)
Definition get_prop (data : JsValue) (name : string) : JsError + JsValue :=
  match data with
  | JUndefined | JNull => inl TypeError
  | JObject fields => inr (lookup name fields)
  | _ => inr JUndefined
  end.

(** ** What the network answers *)

(** [process.env.*] names used as URLs. *)
Inductive EnvVar : Type :=
| REACT_SERVER_URL
| REACT_PARKINGSPOTS_URL
| REACT_HANDICAP_PARKINGSPOTS_URL.

(** A body text, told apart by what [JSON.parse] makes of it. *)
Inductive Text : Type :=
| Malformed
| WellFormed (data : JsValue).

(** A response: [fetch] resolves whatever the status is; [body] is [None]
    when reading the text fails. *)
Record Response : Type := { status : Z; body : option Text }.

Inductive Reply : Type :=
| NetworkFailure
| Replied (r : Response).

(** How [schedulePushNotification] (./frontend/notifications) settles. *)
Inductive PushOutcome : Type := PushResolves | PushRejects.

(** How [registerForPushNotificationsAsync] (./frontend/notifications)
    settles. *)
Inductive TokenOutcome : Type :=
| TokenResolves (expoPushToken : JsValue)
| TokenRejects.

(** ** Observable calls *)

Inductive Payload : Type := JSON_stringify (v : JsValue).

Record RequestInit : Type :=
  { method : string; headers : list (string * string); payload : Payload }.

(** The closure [fetchSpots] of one render of the component: of the state
    it only captures the [isInside] of that render (the setters are the
    same in every render). *)
Inductive Callback : Type := FetchSpotsOf (captured_isInside : bool).

(** The two [onFirstVisit] closures handed to the location service. *)
Inductive FirstVisit : Type :=
| Announcing (fetchSpots : Callback)   (* logs, then [await fetchSpots()] *)
| Plain (fetchSpots : Callback).       (* [fetchSpots()] *)

Inductive Event : Type :=
| Fetch (url : EnvVar) (init : option RequestInit)
| ConsoleLog (msg : string) (args : list JsValue)
| ConsoleError (msg : string) (error : JsError)
| SetSpots (v : JsValue)
| SetHandicapSpots (v : JsValue)
| SetIsInside (b : bool)
| SetUserLocation (v : JsValue)
| SetModalVisible (b : bool)
| SchedulePushNotification (spots handicapSpots : JsValue)
| RegisterForPushNotificationsAsync
| StartBackgroundLocationTracking (onFirstVisit : FirstVisit)
| RegisterTaskAsync (name : string) (minimumInterval : Z)
| SetInterval (callback : Callback) (ms : Z)
| AddNotificationReceivedListener.

(** ** Promises *)

Inductive Settled (A : Type) : Type :=
| Fulfilled (a : A)
| Rejected (e : JsError).
Arguments Fulfilled {A} a.
Arguments Rejected {A} e.

(** A computation over local variables [S]: its settlement, the locals it
    leaves, the calls it made. *)
Definition Async (S A : Type) : Type := S -> Settled A * S * list Event.

Section Promise.
Context {S : Type}.

Definition ret {A} (a : A) : Async S A := fun s => (Fulfilled a, s, []).

Definition reject {A} (e : JsError) : Async S A := fun s => (Rejected e, s, []).

Definition emit (ev : Event) : Async S unit := fun s => (Fulfilled tt, s, [ev]).

Definition bind {A B} (m : Async S A) (k : A -> Async S B) : Async S B :=
  fun s =>
    match m s with
    | (Fulfilled a, s1, t1) =>
        match k a s1 with (r, s2, t2) => (r, s2, t1 ++ t2) end
    | (Rejected e, s1, t1) => (Rejected e, s1, t1)
    end.

(** [p.then(f)] *)
Definition then_ {A B} (p : Async S A) (f : A -> Async S B) : Async S B :=
  bind p f.

(** [p.catch(h)], and [try { p } catch (e) { h }] *)
Definition catch {A} (p : Async S A) (h : JsError -> Async S A) : Async S A :=
  fun s =>
    match p s with
    | (Fulfilled a, s1, t1) => (Fulfilled a, s1, t1)
    | (Rejected e, s1, t1) =>
        match h e s1 with (r, s2, t2) => (r, s2, t1 ++ t2) end
    end.

(** [await p]: the continuation runs once [p] has settled. *)
Definition await {A} (p : Async S A) : Async S A := p.

Definition get : Async S S := fun s => (Fulfilled s, s, []).

Definition modify (f : S -> S) : Async S unit := fun s => (Fulfilled tt, f s, []).

(** A value or a throw. *)
Definition lift {A} (r : JsError + A) : Async S A :=
  match r with inl e => reject e | inr a => ret a end.

(** Calling a function: it runs on its own locals [T]. *)
Definition call {T A} (f : Async T A) (frame : T) : Async S A :=
  fun s => match f frame with (r, _, t) => (r, s, t) end.

(** A promise that nobody awaits or chains on: its calls happen, how it
    settles is dropped. *)
Definition detach {A} (p : Async S A) : Async S unit :=
  fun s => match p s with (_, s1, t) => (Fulfilled tt, s1, t) end.

(** An asynchronous function called from an effect, without [await]: it
    runs at once up to its first [await], which in [registerToken] and in
    [fetchSpots] is their first call ... *)
Definition started {A} (p : Async S A) : Async S unit :=
  fun s => (Fulfilled tt, s, firstn 1 (snd (p s))).

(** ... and goes on once the effects are done and the awaited promise has
    settled.  How it settles in the end is dropped. *)
Definition resumed {A} (p : Async S A) : Async S unit :=
  fun s => match p s with (_, s1, t) => (Fulfilled tt, s1, skipn 1 t) end.
End Promise.

Notation "x <- m ;; k" := (bind m (fun x => k))
  (at level 61, m at next level, right associativity).
Notation "m ;; k" := (bind m (fun _ => k))
  (at level 61, right associativity).

(** How a finished computation settled, and the calls it made. *)
Definition settlement {S A} (r : Settled A * S * list Event) : Settled A := fst (fst r).
Definition events {S A} (r : Settled A * S * list Event) : list Event := snd r.

Definition fulfilled {A} (r : Settled A) : bool :=
  match r with Fulfilled _ => true | Rejected _ => false end.

(** ** Platform calls *)

Section Platform.
Context {S : Type}.

(** [fetch(url)] *)
Definition fetch (url : EnvVar) (init : option RequestInit) (reply : Reply)
  : Async S Response :=
  emit (Fetch url init) ;;
  match reply with
  | NetworkFailure => reject NetworkError
  | Replied r => ret r
  end.

(** [response.text()] *)
Definition text (response : Response) : Async S Text :=
  match body response with
  | None => reject BodyError
  | Some t => ret t
  end.

(** [JSON.parse(text)] *)
Definition JSON_parse (t : Text) : Async S JsValue :=
  match t with
  | Malformed => reject SyntaxError
  | WellFormed data => ret data
  end.

Definition console_log (msg : string) (args : list JsValue) : Async S unit :=
  emit (ConsoleLog msg args).

Definition console_error (msg : string) (error : JsError) : Async S unit :=
  emit (ConsoleError msg error).

(** [setSpots(v)] and [setHandicapSpots(v)]: the call is recorded and
    returns.  What React makes of the value when it renders it (it refuses
    an object as the child of [<Text>], and on a legacy root it renders
    before the setter returns) is not part of the model: how [fetchSpots]
    settles is only stated for counts that can be displayed. *)
Definition setSpots (v : JsValue) : Async S unit := emit (SetSpots v).

Definition setHandicapSpots (v : JsValue) : Async S unit :=
  emit (SetHandicapSpots v).

(** The call is recorded; how it settles is given. *)
Definition schedulePushNotification (push : PushOutcome)
    (spots handicapSpots : JsValue) : Async S unit :=
  emit (SchedulePushNotification spots handicapSpots) ;;
  match push with
  | PushResolves => ret tt
  | PushRejects => reject PushError
  end.
End Platform.

(** ** [fetchSpots] *)

(** The two [let] variables of [fetchSpots]. *)
Record Locals : Type := { l_spots : JsValue; l_handicapSpots : JsValue }.

Definition assign_spots (v : JsValue) : Async Locals unit :=
  modify (fun l => {| l_spots := v; l_handicapSpots := l_handicapSpots l |}).

Definition assign_handicapSpots (v : JsValue) : Async Locals unit :=
  modify (fun l => {| l_spots := l_spots l; l_handicapSpots := v |}).

(** The body of [fetchSpots], as created by a render whose [isInside] is
    the first argument. *)
Definition fetchSpots_body (isInside : bool) (general accessible : Reply)
    (push : PushOutcome) : Async Locals unit :=
  assign_spots zero ;;
  assign_handicapSpots zero ;;
  await
    (catch
       (then_ (then_ (then_ (fetch REACT_PARKINGSPOTS_URL None general)
                 (fun response => text response))
                 (fun t => JSON_parse t))
          (fun data =>
             console_log "Data fetched successfully" [data] ;;
             v <- lift (get_prop data "free_spots") ;;
             assign_spots v))
       (fun error => console_error "Error fetching data" error)) ;;
  await
    (catch
       (then_ (then_ (then_ (fetch REACT_HANDICAP_PARKINGSPOTS_URL None accessible)
                 (fun response => text response))
                 (fun t => JSON_parse t))
          (fun data =>
             console_log "Data fetched successfully" [data] ;;
             v <- lift (get_prop data "free_handicap_spots") ;;
             assign_handicapSpots v))
       (fun error => console_error "Error fetching data" error)) ;;
  l <- get ;;
  setSpots (l_spots l) ;;
  setHandicapSpots (l_handicapSpots l) ;;
  if isInside
  then await (schedulePushNotification push (l_spots l) (l_handicapSpots l))
  else ret tt.

(** The frame a call starts from: both variables not yet initialised. *)
Definition fresh : Locals := {| l_spots := JUndefined; l_handicapSpots := JUndefined |}.

(** One invocation of [fetchSpots]. *)
Definition fetchSpots (isInside : bool) (general accessible : Reply)
    (push : PushOutcome) : Settled unit * Locals * list Event :=
  fetchSpots_body isInside general accessible push fresh.

(** ** The component *)

(** The five [useState] cells. *)
Record AppState : Type :=
  { spots : JsValue;
    handicapSpots : JsValue;
    modalVisible : bool;
    userLocation : JsValue;
    isInside : bool }.

(** The arguments of the five [useState] calls. *)
Definition initial : AppState :=
  {| spots := zero;
     handicapSpots := zero;
     modalVisible := false;
     userLocation := JNull;
     isInside := false |}.

(** What a call does to the state cells: only the setters write. *)
Definition apply (st : AppState) (ev : Event) : AppState :=
  match ev with
  | SetSpots v =>
      {| spots := v; handicapSpots := handicapSpots st;
         modalVisible := modalVisible st; userLocation := userLocation st;
         isInside := isInside st |}
  | SetHandicapSpots v =>
      {| spots := spots st; handicapSpots := v;
         modalVisible := modalVisible st; userLocation := userLocation st;
         isInside := isInside st |}
  | SetIsInside b =>
      {| spots := spots st; handicapSpots := handicapSpots st;
         modalVisible := modalVisible st; userLocation := userLocation st;
         isInside := b |}
  | SetUserLocation v =>
      {| spots := spots st; handicapSpots := handicapSpots st;
         modalVisible := modalVisible st; userLocation := v;
         isInside := isInside st |}
  | SetModalVisible b =>
      {| spots := spots st; handicapSpots := handicapSpots st;
         modalVisible := b; userLocation := userLocation st;
         isInside := isInside st |}
  | _ => st
  end.

Definition replay (st : AppState) (t : list Event) : AppState :=
  fold_left apply t st.

(** The [fetchSpots] a render of state [st] creates. *)
Definition render_fetchSpots (st : AppState) : Callback :=
  FetchSpotsOf (isInside st).

(** Invoking a [fetchSpots] closure. *)
Definition invoke {S} (cb : Callback) (general accessible : Reply)
    (push : PushOutcome) : Async S unit :=
  match cb with
  | FetchSpotsOf captured =>
      call (fetchSpots_body captured general accessible push) fresh
  end.

(** [onFirstVisit] of the effect at lines 51-64, and of the one at lines
    127-146. *)
Definition onFirstVisit {S} (f : FirstVisit) (general accessible : Reply)
    (push : PushOutcome) : Async S unit :=
  match f with
  | Announcing cb =>
      console_log "Trigger push notification" [] ;;
      await (invoke cb general accessible push)
  | Plain cb => detach (invoke cb general accessible push)
  end.

Definition BACKGROUND_FETCH_TASK : string := "background-fetch".

(** [registerToken] of the first effect. *)
Definition registerToken (token : TokenOutcome) : Async unit unit :=
  expoPushToken <-
    await (emit RegisterForPushNotificationsAsync ;;
           match token with
           | TokenResolves t => ret t
           | TokenRejects => reject TokenError
           end) ;;
  emit (Fetch REACT_SERVER_URL
          (Some {| method := "POST";
                   headers := [("Content-Type", "application/json")];
                   payload := JSON_stringify (JObject [("token", expoPushToken)]) |})).

(** The effects of the first render, in the order of their [useEffect]
    calls.  Every closure they mention is one of the first render.
    [registerToken()] and [fetchSpots()] are called without [await]: the
    effects only see them up to their first [await] (the token call, the
    general request); the POST and the rest of the poll come after the
    last effect, in the order the two functions were called. *)
Definition effects (first : AppState) (token : TokenOutcome)
    (general accessible : Reply) (push : PushOutcome) : Async unit unit :=
  (* lines 31-48 *)
  started (registerToken token) ;;
  (* lines 51-64 *)
  emit (StartBackgroundLocationTracking (Announcing (render_fetchSpots first))) ;;
  (* lines 110-124 *)
  started (invoke (render_fetchSpots first) general accessible push) ;;
  emit (RegisterTaskAsync BACKGROUND_FETCH_TASK 1) ;;
  console_log "Background fetch task registered" [] ;;
  emit (SetInterval (render_fetchSpots first) 10000) ;;
  (* lines 127-146 *)
  emit (StartBackgroundLocationTracking (Plain (render_fetchSpots first))) ;;
  (* lines 149-154 *)
  emit AddNotificationReceivedListener ;;
  (* after the effects: lines 35-44, then lines 73-106 *)
  resumed (registerToken token) ;;
  resumed (invoke (render_fetchSpots first) general accessible push).

Inductive BackgroundFetchResult : Type := NewData | Failed.

(** The executor handed to [TaskManager.defineTask]; [now] is [Date.now()],
    logged as an ISO date. *)
Definition background_fetch_task (fetchSpots : Callback) (now : Z)
    (general accessible : Reply) (push : PushOutcome)
  : Async unit BackgroundFetchResult :=
  console_log "Got background fetch call at date: " [JInt now] ;;
  catch
    (await (invoke fetchSpots general accessible push) ;;
     console_log "Background fetch task completed successfully" [] ;;
     ret NewData)
    (fun err =>
       console_error "Background fetch task failed:" err ;;
       ret Failed).

(** ** The running application *)

(** The state cells and everything done so far.  What was registered with
    the platform is read back from the history. *)
Record World : Type := { state : AppState; history : list Event }.

Definition intervals (t : list Event) : list Callback :=
  flat_map (fun ev => match ev with SetInterval cb _ => [cb] | _ => [] end) t.

Definition trackers (t : list Event) : list FirstVisit :=
  flat_map (fun ev =>
              match ev with StartBackgroundLocationTracking f => [f] | _ => [] end) t.

(** What the platform and the user do to a mounted component. *)
Inductive Input : Type :=
| IntervalTick (general accessible : Reply) (push : PushOutcome)
| FirstVisitCall (tracker : nat) (general accessible : Reply) (push : PushOutcome)
| LocationChange (isInsideGeofence : bool)
| LocationUpdate (location : JsValue)
| BackgroundFetchCall (now : Z) (general accessible : Reply) (push : PushOutcome)
| PressButton.

(** The calls an input leads to.  The timer and the location service hold
    the closures they were given when the effects ran.  The task executor
    is handed to [TaskManager.defineTask] in the component body, so by
    every render, and the button handler is part of the rendered tree:
    both are those of the render of the current state. *)
Definition react (w : World) (i : Input) : list Event :=
  match i with
  | IntervalTick g a p =>
      match intervals (history w) with
      | cb :: _ => events (invoke cb g a p tt)
      | [] => []
      end
  | FirstVisitCall n g a p =>
      match nth_error (trackers (history w)) n with
      | Some f => events (onFirstVisit f g a p tt)
      | None => []
      end
  | LocationChange b => [SetIsInside b]
  | LocationUpdate l => [SetUserLocation l]
  | BackgroundFetchCall now g a p =>
      events (background_fetch_task (render_fetchSpots (state w)) now g a p tt)
  | PressButton => [SetModalVisible (negb (modalVisible (state w)))]
  end.

Definition step (w : World) (i : Input) : World :=
  let t := react w i in
  {| state := replay (state w) t; history := history w ++ t |}.

Definition run (w : World) (inputs : list Input) : World :=
  fold_left step inputs w.

(** Mounting: the first render is of [initial]; then its effects run. *)
Definition mount (token : TokenOutcome) (general accessible : Reply)
    (push : PushOutcome) : World :=
  let t := events (effects initial token general accessible push tt) in
  {| state := replay initial t; history := t |}.

(** ** Reading a request chain *)

(** What [data.name] is at the end of the chain
    [fetch(url).then(text).then(JSON.parse).then(data => ... data.name)],
    or what the chain is rejected with before [.catch]. *)
Definition outcome (name : string) (reply : Reply) : JsError + JsValue :=
  match reply with
  | NetworkFailure => inl NetworkError
  | Replied r =>
      match body r with
      | None => inl BodyError
      | Some Malformed => inl SyntaxError
      | Some (WellFormed data) => get_prop data name
      end
  end.

(** The value the local variable holds after the chain. *)
Definition assigned (name : string) (reply : Reply) : JsValue :=
  match outcome name reply with
  | inr v => v
  | inl _ => zero
  end.

(** The calls of one chain, [.catch] included. *)
Definition chain_calls (url : EnvVar) (name : string) (reply : Reply) : list Event :=
  Fetch url None ::
  match reply with
  | Replied {| status := _; body := Some (WellFormed data) |} =>
      [ConsoleLog "Data fetched successfully" [data]]
  | _ => []
  end ++
  match outcome name reply with
  | inl e => [ConsoleError "Error fetching data" e]
  | inr _ => []
  end.

(** The call of the last statement of [fetchSpots]. *)
Definition push_calls (isInside : bool) (s h : JsValue) : list Event :=
  if isInside then [SchedulePushNotification s h] else [].

Definition push_settlement (isInside : bool) (push : PushOutcome) : Settled unit :=
  if isInside
  then match push with
       | PushResolves => Fulfilled tt
       | PushRejects => Rejected PushError
       end
  else Fulfilled tt.

(** Selections from a trace. *)
Definition is_setter (ev : Event) : bool :=
  match ev with SetSpots _ | SetHandicapSpots _ => true | _ => false end.

Definition is_push (ev : Event) : bool :=
  match ev with SchedulePushNotification _ _ => true | _ => false end.

Definition is_request (ev : Event) : bool :=
  match ev with Fetch _ _ => true | _ => false end.

Definition is_error_log (ev : Event) : bool :=
  match ev with ConsoleError _ _ => true | _ => false end.

Definition is_token_call (ev : Event) : bool :=
  match ev with RegisterForPushNotificationsAsync => true | _ => false end.

Definition is_server_request (ev : Event) : bool :=
  match ev with Fetch REACT_SERVER_URL _ => true | _ => false end.

Definition is_registration (ev : Event) : bool :=
  match ev with
  | SetInterval _ _ | StartBackgroundLocationTracking _ => true
  | _ => false
  end.

(** How the task ends, given how its [fetchSpots] settled. *)
Definition task_result (r : Settled unit) : BackgroundFetchResult :=
  match r with Fulfilled _ => NewData | Rejected _ => Failed end.

Definition task_report (r : Settled unit) : Event :=
  match r with
  | Fulfilled _ => ConsoleLog "Background fetch task completed successfully" []
  | Rejected e => ConsoleError "Background fetch task failed:" e
  end.

(** ** What only happens while mounting *)

Definition is_startup (ev : Event) : bool :=
  match ev with
  | RegisterForPushNotificationsAsync
  | Fetch REACT_SERVER_URL _
  | StartBackgroundLocationTracking _
  | RegisterTaskAsync _ _
  | SetInterval _ _
  | AddNotificationReceivedListener => true
  | _ => false
  end.

Definition startup_free (t : list Event) : Prop :=
  forallb (fun ev => negb (is_startup ev)) t = true.

(** The POST of [registerToken]. *)
Definition token_request (t : JsValue) : Event :=
  Fetch REACT_SERVER_URL
    (Some {| method := "POST";
             headers := [("Content-Type", "application/json")];
             payload := JSON_stringify (JObject [("token", t)]) |}).

(** What [registerToken] does once the token call has settled. *)
Definition token_post (token : TokenOutcome) : list Event :=
  match token with
  | TokenResolves t => [token_request t]
  | TokenRejects => []
  end.

(** The calls the five effects make themselves, in order. *)
Definition setup : list Event :=
  [RegisterForPushNotificationsAsync;
   StartBackgroundLocationTracking (Announcing (FetchSpotsOf false));
   Fetch REACT_PARKINGSPOTS_URL None;
   RegisterTaskAsync "background-fetch" 1;
   ConsoleLog "Background fetch task registered" [];
   SetInterval (FetchSpotsOf false) 10000;
   StartBackgroundLocationTracking (Plain (FetchSpotsOf false));
   AddNotificationReceivedListener].

(** ** Fixtures *)

(** A 200 response whose body is [{name: z}]. *)
Definition feed (name : string) (z : Z) : Reply :=
  Replied {| status := 200; body := Some (WellFormed (JObject [(name, JInt z)])) |}.

(** ** The range of the counts *)

Definition count_in_range (name : string) (reply : Reply) : Prop :=
  match outcome name reply with
  | inr v => nonneg_integer v = true
  | inl _ => True
  end.

Definition feed_in_range (i : Input) : Prop :=
  match i with
  | IntervalTick g a _ | FirstVisitCall _ g a _ | BackgroundFetchCall _ g a _ =>
      count_in_range "free_spots" g /\ count_in_range "free_handicap_spots" a
  | _ => True
  end.

Definition counts_in_range (st : AppState) : Prop :=
  nonneg_integer (spots st) = true /\ nonneg_integer (handicapSpots st) = true.

(** A value [<Text>{v}</Text>] shows or skips: a number, a string, a
    boolean, [null] or [undefined]. *)
Definition displayable (v : JsValue) : bool :=
  match v with
  | JObject _ | JArray _ => false
  | _ => true
  end.

(** The error logs of one chain. *)
Definition chain_errors (name : string) (reply : Reply) : list Event :=
  match outcome name reply with
  | inl e => [ConsoleError "Error fetching data" e]
  | inr _ => []
  end.

(** ** What is rendered *)

(** [ToBoolean]: what [userLocation ? ... : ...] and [geofence && ...]
    test. *)
Definition truthy (v : JsValue) : bool :=
  match v with
  | JUndefined | JNull => false
  | JBool b => b
  | JNumber q => negb (Qnum q =? 0)
  | JString s => negb (String.eqb s "")
  | JArray _ | JObject _ => true
  end.

Record Region : Type :=
  { latitude : JsValue; longitude : JsValue;
    latitudeDelta : Q; longitudeDelta : Q }.

Record Marker : Type :=
  { coordinate : JsValue * JsValue; title : string }.

Record Circle : Type := { center : JsValue; radius : JsValue }.

(** The props of [MapView] and of its three children. *)
Record MapView : Type :=
  { initialRegion : Region;
    region : Region;
    my_location : Marker;
    target_location : Marker;
    circle : Circle }.

(** The values the returned tree is built from (styles left out). *)
Record Screen : Type :=
  { button_title : string;
    modal_visible : bool;
    modal_button_title : string;
    map : option MapView;
    spots_text : JsValue;
    handicap_text : JsValue }.

(** [userLocation ? userLocation.name : geofence.name] *)
Definition located (userLocation geofence : JsValue) (name : string)
  : JsError + JsValue :=
  if truthy userLocation then get_prop userLocation name else get_prop geofence name.

Definition and_then {A B} (r : JsError + A) (k : A -> JsError + B) : JsError + B :=
  match r with inl e => inl e | inr a => k a end.

(** The region literal, written out twice in the source. *)
Definition region_of (userLocation geofence : JsValue) : JsError + Region :=
  and_then (located userLocation geofence "latitude") (fun lat =>
  and_then (located userLocation geofence "longitude") (fun lng =>
  inr {| latitude := lat; longitude := lng;
         latitudeDelta := 922 # 10000; longitudeDelta := 421 # 10000 |})).

(** [geofence && (<View> <MapView ...> ... </View>)], the props evaluated
    in source order. *)
Definition render_map (userLocation geofence : JsValue) : JsError + option MapView :=
  if truthy geofence then
    and_then (region_of userLocation geofence) (fun initial_region =>
    and_then (region_of userLocation geofence) (fun current_region =>
    and_then (located userLocation geofence "latitude") (fun lat =>
    and_then (located userLocation geofence "longitude") (fun lng =>
    and_then (get_prop geofence "latitude") (fun glat =>
    and_then (get_prop geofence "longitude") (fun glng =>
    and_then (get_prop geofence "radius") (fun r =>
    inr (Some {| initialRegion := initial_region;
                 region := current_region;
                 my_location := {| coordinate := (lat, lng); title := "My Location" |};
                 target_location :=
                   {| coordinate := (glat, glng); title := "Target Location" |};
                 circle := {| center := geofence; radius := r |} |}))))))))
  else inr None.

(** The [return] of the component, for the [geofence] the location service
    exports. *)
Definition render (geofence : JsValue) (st : AppState) : JsError + Screen :=
  and_then (render_map (userLocation st) geofence) (fun m =>
  inr {| button_title := if modalVisible st then "Hide Map" else "Show Map";
         modal_visible := modalVisible st;
         modal_button_title := if modalVisible st then "Hide Map" else "Show Map";
         map := m;
         spots_text := spots st;
         handicap_text := handicapSpots st |}).

(** ** Reading a run *)

(** The state a poll leaves: both counts overwritten, the rest kept. *)
Definition polled (st : AppState) (g a : Reply) : AppState :=
  {| spots := assigned "free_spots" g;
     handicapSpots := assigned "free_handicap_spots" a;
     modalVisible := modalVisible st;
     userLocation := userLocation st;
     isInside := isInside st |}.

Definition inside_after (before : bool) (i : Input) : bool :=
  match i with LocationChange b => b | _ => before end.

(** The last [isInsideGeofence] the location service reported, [false]
    before the first report. *)
Definition reported_inside (inputs : list Input) : bool :=
  fold_left inside_after inputs false.

Definition location_after (before : JsValue) (i : Input) : JsValue :=
  match i with LocationUpdate l => l | _ => before end.

(** The last location the location service reported, [null] before. *)
Definition reported_location (inputs : list Input) : JsValue :=
  fold_left location_after inputs JNull.

Definition is_press (i : Input) : bool :=
  match i with PressButton => true | _ => false end.

Definition presses (inputs : list Input) : nat := List.length (filter is_press inputs).

(** The notifications of a run, read off its inputs: those of the
    background fetches that happen while the last report says inside. *)
Fixpoint notifications (inside : bool) (inputs : list Input) : list Event :=
  match inputs with
  | [] => []
  | LocationChange b :: rest => notifications b rest
  | BackgroundFetchCall _ g a _ :: rest =>
      push_calls inside (assigned "free_spots" g) (assigned "free_handicap_spots" a)
      ++ notifications inside rest
  | _ :: rest => notifications inside rest
  end.

(** The timer and the location service hold the closures of the first
    render. *)
Definition wired (w : World) : Prop :=
  intervals (history w) = [FetchSpotsOf false] /\
  trackers (history w) = [Announcing (FetchSpotsOf false); Plain (FetchSpotsOf false)].

(** Whether [data] is a value without property [name]: an object that has
    no such key, or a boolean, number, string or array. *)
Definition has_key (name : string) (fields : list (string * JsValue)) : bool :=
  existsb (fun kv => String.eqb (fst kv) name) fields.

Definition lacks (name : string) (data : JsValue) : bool :=
  match data with
  | JUndefined | JNull => false
  | JObject fields => negb (has_key name fields)
  | _ => true
  end.

(** A response with the given body value. *)
Definition answering (st : Z) (data : JsValue) : Reply :=
  Replied {| status := st; body := Some (WellFormed data) |}.

(** ** [fetchSpots] in closed form *)

(** Every shape of an answer: no response, a body that cannot be read, a
    body that is not JSON, and each kind of parsed value. *)
Ltac split_reply r :=
  let st := fresh "status" in
  let d := fresh "data" in
  destruct r as [ | [st [ [ | d ] | ] ] ]; [ | | destruct d | ].

Lemma fetchSpots_closed (inside : bool) (g a : Reply) (p : PushOutcome) :
  fetchSpots inside g a p =
  (push_settlement inside p,
   {| l_spots := assigned "free_spots" g;
      l_handicapSpots := assigned "free_handicap_spots" a |},
   chain_calls REACT_PARKINGSPOTS_URL "free_spots" g ++
   chain_calls REACT_HANDICAP_PARKINGSPOTS_URL "free_handicap_spots" a ++
   SetSpots (assigned "free_spots" g) ::
   SetHandicapSpots (assigned "free_handicap_spots" a) ::
   push_calls inside (assigned "free_spots" g) (assigned "free_handicap_spots" a)).
Proof.
  split_reply g; split_reply a; destruct inside, p; reflexivity.
Qed.

Lemma fetchSpots_events (inside : bool) (g a : Reply) (p : PushOutcome) :
  events (fetchSpots inside g a p) =
  chain_calls REACT_PARKINGSPOTS_URL "free_spots" g ++
  chain_calls REACT_HANDICAP_PARKINGSPOTS_URL "free_handicap_spots" a ++
  SetSpots (assigned "free_spots" g) ::
  SetHandicapSpots (assigned "free_handicap_spots" a) ::
  push_calls inside (assigned "free_spots" g) (assigned "free_handicap_spots" a).
Proof. rewrite fetchSpots_closed. reflexivity. Qed.

Lemma fetchSpots_settlement (inside : bool) (g a : Reply) (p : PushOutcome) :
  settlement (fetchSpots inside g a p) = push_settlement inside p.
Proof. rewrite fetchSpots_closed. reflexivity. Qed.

Lemma invoke_run {S} (c : bool) (g a : Reply) (p : PushOutcome) (s : S) :
  invoke (FetchSpotsOf c) g a p s =
  (settlement (fetchSpots c g a p), s, events (fetchSpots c g a p)).
Proof.
  unfold invoke, call, fetchSpots, settlement, events.
  destruct (fetchSpots_body c g a p fresh) as [[r l] t]. reflexivity.
Qed.

(** ** The callbacks in closed form *)

Lemma onFirstVisit_announcing (c : bool) (g a : Reply) (p : PushOutcome) :
  events (onFirstVisit (Announcing (FetchSpotsOf c)) g a p tt) =
  ConsoleLog "Trigger push notification" [] :: events (fetchSpots c g a p).
Proof.
  unfold onFirstVisit, await, console_log, emit, bind.
  rewrite invoke_run. reflexivity.
Qed.

Lemma onFirstVisit_plain (c : bool) (g a : Reply) (p : PushOutcome) :
  events (onFirstVisit (Plain (FetchSpotsOf c)) g a p tt) =
  events (fetchSpots c g a p).
Proof.
  unfold onFirstVisit, detach. rewrite invoke_run. reflexivity.
Qed.

Lemma background_fetch_task_closed (c : bool) (now : Z) (g a : Reply)
    (p : PushOutcome) :
  background_fetch_task (FetchSpotsOf c) now g a p tt =
  (Fulfilled (task_result (settlement (fetchSpots c g a p))), tt,
   ConsoleLog "Got background fetch call at date: " [JInt now] ::
   events (fetchSpots c g a p) ++ [task_report (settlement (fetchSpots c g a p))]).
Proof.
  unfold background_fetch_task, await, console_log, console_error, emit, catch, bind.
  rewrite invoke_run.
  destruct (settlement (fetchSpots c g a p)) as [[] | e]; simpl;
    rewrite ?app_nil_r; reflexivity.
Qed.

Lemma startup_free_app (t1 t2 : list Event) :
  startup_free t1 -> startup_free t2 -> startup_free (t1 ++ t2).
Proof.
  unfold startup_free. intros H1 H2. rewrite forallb_app, H1, H2. reflexivity.
Qed.

Lemma fetchSpots_startup_free (c : bool) (g a : Reply) (p : PushOutcome) :
  startup_free (events (fetchSpots c g a p)).
Proof.
  rewrite fetchSpots_events.
  split_reply g; split_reply a; destruct c; reflexivity.
Qed.

Lemma react_startup_free (w : World) (i : Input) : startup_free (react w i).
Proof.
  destruct i as [g a p | n g a p | b | l | now g a p | ]; simpl; try reflexivity.
  - destruct (intervals (history w)) as [ | [c] rest ]; [ reflexivity | ].
    rewrite invoke_run. apply fetchSpots_startup_free.
  - destruct (nth_error (trackers (history w)) n) as [ [ [c] | [c] ] | ];
      [ rewrite onFirstVisit_announcing | rewrite onFirstVisit_plain | reflexivity ].
    + apply (startup_free_app [_]); [ reflexivity | apply fetchSpots_startup_free ].
    + apply fetchSpots_startup_free.
  - unfold render_fetchSpots. rewrite background_fetch_task_closed.
    apply (startup_free_app [_]); [ reflexivity | ].
    apply startup_free_app; [ apply fetchSpots_startup_free | ].
    destruct (settlement (fetchSpots (isInside (state w)) g a p)); reflexivity.
Qed.

(** A selection that only keeps startup calls finds nothing afterwards. *)
Lemma startup_filter_nil (f : Event -> bool) (t : list Event) :
  (forall ev, f ev = true -> is_startup ev = true) ->
  startup_free t -> filter f t = [].
Proof.
  intros Hf. unfold startup_free. induction t as [ | ev t IH ]; simpl; intros H.
  - reflexivity.
  - apply andb_prop in H. destruct H as [Hev Ht].
    destruct (f ev) eqn:E.
    + apply Hf in E. rewrite E in Hev. discriminate.
    + apply IH, Ht.
Qed.

Lemma intervals_app (t1 t2 : list Event) :
  intervals (t1 ++ t2) = intervals t1 ++ intervals t2.
Proof. apply flat_map_app. Qed.

Lemma trackers_app (t1 t2 : list Event) :
  trackers (t1 ++ t2) = trackers t1 ++ trackers t2.
Proof. apply flat_map_app. Qed.

Lemma intervals_startup_free (t : list Event) : startup_free t -> intervals t = [].
Proof.
  unfold startup_free. induction t as [ | ev t IH ]; simpl; intros H.
  - reflexivity.
  - apply andb_prop in H. destruct H as [Hev Ht].
    rewrite (IH Ht). destruct ev; try reflexivity; discriminate.
Qed.

Lemma trackers_startup_free (t : list Event) : startup_free t -> trackers t = [].
Proof.
  unfold startup_free. induction t as [ | ev t IH ]; simpl; intros H.
  - reflexivity.
  - apply andb_prop in H. destruct H as [Hev Ht].
    rewrite (IH Ht). destruct ev; try reflexivity; discriminate.
Qed.

(** ** Runs *)

Lemma run_snoc (w : World) (inputs : list Input) (i : Input) :
  run w (inputs ++ [i]) = step (run w inputs) i.
Proof. unfold run. rewrite fold_left_app. reflexivity. Qed.

(** The history of a run is the history at its start followed by calls
    none of which is a startup call. *)
Lemma run_history (w : World) (inputs : list Input) :
  exists later, history (run w inputs) = history w ++ later /\ startup_free later.
Proof.
  induction inputs as [ | i inputs IH ] using rev_ind.
  - exists []. rewrite app_nil_r. split; reflexivity.
  - destruct IH as [later [Hh Hfree]].
    exists (later ++ react (run w inputs) i).
    rewrite run_snoc. simpl. rewrite Hh, app_assoc. split; [ reflexivity | ].
    apply startup_free_app; [ exact Hfree | apply react_startup_free ].
Qed.

(** A poll starts with the general request. *)
Lemma fetchSpots_head (c : bool) (g a : Reply) (p : PushOutcome) :
  events (fetchSpots c g a p) =
  Fetch REACT_PARKINGSPOTS_URL None :: tl (events (fetchSpots c g a p)).
Proof. rewrite fetchSpots_events. reflexivity. Qed.

Lemma poll_rest_startup_free (c : bool) (g a : Reply) (p : PushOutcome) :
  startup_free (tl (events (fetchSpots c g a p))).
Proof.
  pose proof (fetchSpots_startup_free c g a p) as H.
  rewrite fetchSpots_head in H. unfold startup_free in *. simpl in H. exact H.
Qed.

Lemma mount_history (token : TokenOutcome) (g a : Reply) (p : PushOutcome) :
  history (mount token g a p) =
  setup ++ token_post token ++ tl (events (fetchSpots false g a p)).
Proof.
  unfold mount, history, effects.
  change (render_fetchSpots initial) with (FetchSpotsOf false).
  destruct token; unfold started, resumed; cbn -[invoke fetchSpots];
    rewrite !invoke_run; cbn -[fetchSpots];
    rewrite (fetchSpots_head false g a p); reflexivity.
Qed.

(** A selection that ignores what a poll does reads the history of the
    mount off [setup] and the POST. *)
Lemma mount_filter (f : Event -> bool) (token : TokenOutcome) (g a : Reply)
    (p : PushOutcome) :
  (forall ev, f ev = true -> is_startup ev = true) ->
  filter f (history (mount token g a p)) =
  filter f setup ++ filter f (token_post token).
Proof.
  intros Hf. rewrite mount_history, !filter_app.
  rewrite (startup_filter_nil f _ Hf (poll_rest_startup_free false g a p)).
  apply f_equal, app_nil_r.
Qed.

Lemma mount_intervals (token : TokenOutcome) (g a : Reply) (p : PushOutcome) :
  intervals (history (mount token g a p)) = [FetchSpotsOf false].
Proof.
  rewrite mount_history, !intervals_app.
  rewrite (intervals_startup_free _ (poll_rest_startup_free _ _ _ _)).
  destruct token; reflexivity.
Qed.

Lemma mount_trackers (token : TokenOutcome) (g a : Reply) (p : PushOutcome) :
  trackers (history (mount token g a p)) =
  [Announcing (FetchSpotsOf false); Plain (FetchSpotsOf false)].
Proof.
  rewrite mount_history, !trackers_app.
  rewrite (trackers_startup_free _ (poll_rest_startup_free _ _ _ _)).
  destruct token; reflexivity.
Qed.

(** The timer and the location service keep the closures of the first
    render for as long as the component runs. *)
Lemma run_intervals (token : TokenOutcome) (g a : Reply) (p : PushOutcome)
    (inputs : list Input) :
  intervals (history (run (mount token g a p) inputs)) = [FetchSpotsOf false].
Proof.
  destruct (run_history (mount token g a p) inputs) as [later [Hh Hfree]].
  rewrite Hh, intervals_app, mount_intervals, (intervals_startup_free _ Hfree).
  reflexivity.
Qed.

Lemma run_trackers (token : TokenOutcome) (g a : Reply) (p : PushOutcome)
    (inputs : list Input) :
  trackers (history (run (mount token g a p) inputs)) =
  [Announcing (FetchSpotsOf false); Plain (FetchSpotsOf false)].
Proof.
  destruct (run_history (mount token g a p) inputs) as [later [Hh Hfree]].
  rewrite Hh, trackers_app, mount_trackers, (trackers_startup_free _ Hfree).
  reflexivity.
Qed.

Lemma react_interval (token : TokenOutcome) (g0 a0 : Reply) (p0 : PushOutcome)
    (inputs : list Input) (g a : Reply) (p : PushOutcome) :
  react (run (mount token g0 a0 p0) inputs) (IntervalTick g a p) =
  events (fetchSpots false g a p).
Proof.
  unfold react. rewrite run_intervals, invoke_run. reflexivity.
Qed.

Lemma react_first_visit_0 (token : TokenOutcome) (g0 a0 : Reply) (p0 : PushOutcome)
    (inputs : list Input) (g a : Reply) (p : PushOutcome) :
  react (run (mount token g0 a0 p0) inputs) (FirstVisitCall 0 g a p) =
  ConsoleLog "Trigger push notification" [] :: events (fetchSpots false g a p).
Proof.
  unfold react. rewrite run_trackers. simpl nth_error.
  apply onFirstVisit_announcing.
Qed.

Lemma react_first_visit_1 (token : TokenOutcome) (g0 a0 : Reply) (p0 : PushOutcome)
    (inputs : list Input) (g a : Reply) (p : PushOutcome) :
  react (run (mount token g0 a0 p0) inputs) (FirstVisitCall 1 g a p) =
  events (fetchSpots false g a p).
Proof.
  unfold react. rewrite run_trackers. simpl nth_error.
  apply onFirstVisit_plain.
Qed.

(** ** The state after a poll *)

Lemma replay_app (st : AppState) (t1 t2 : list Event) :
  replay st (t1 ++ t2) = replay (replay st t1) t2.
Proof. apply fold_left_app. Qed.

Lemma replay_fetchSpots (st : AppState) (c : bool) (g a : Reply) (p : PushOutcome) :
  replay st (events (fetchSpots c g a p)) =
  {| spots := assigned "free_spots" g;
     handicapSpots := assigned "free_handicap_spots" a;
     modalVisible := modalVisible st;
     userLocation := userLocation st;
     isInside := isInside st |}.
Proof.
  rewrite fetchSpots_events.
  split_reply g; split_reply a; destruct c; reflexivity.
Qed.

Lemma replay_task (st : AppState) (c : bool) (now : Z) (g a : Reply)
    (p : PushOutcome) :
  replay st (events (background_fetch_task (FetchSpotsOf c) now g a p tt)) =
  replay st (events (fetchSpots c g a p)).
Proof.
  rewrite background_fetch_task_closed. unfold events at 1. simpl snd.
  change (?x :: ?t ++ ?u) with ([x] ++ t ++ u).
  rewrite !replay_app.
  destruct (settlement (fetchSpots c g a p)); reflexivity.
Qed.

Lemma assigned_in_range (name : string) (reply : Reply) :
  count_in_range name reply -> nonneg_integer (assigned name reply) = true.
Proof.
  unfold count_in_range, assigned.
  destruct (outcome name reply); [ reflexivity | trivial ].
Qed.

Lemma poll_in_range (st : AppState) (c : bool) (g a : Reply) (p : PushOutcome) :
  count_in_range "free_spots" g -> count_in_range "free_handicap_spots" a ->
  counts_in_range (replay st (events (fetchSpots c g a p))).
Proof.
  intros Hg Ha. rewrite replay_fetchSpots.
  split; simpl; apply assigned_in_range; assumption.
Qed.

Lemma step_in_range (w : World) (i : Input) :
  feed_in_range i -> counts_in_range (state w) -> counts_in_range (state (step w i)).
Proof.
  intros Hi Hw. unfold step. simpl state.
  destruct i as [g a p | n g a p | b | l | now g a p | ]; simpl react;
    try exact Hw; simpl in Hi.
  - destruct (intervals (history w)) as [ | [c] rest ]; [ exact Hw | ].
    rewrite invoke_run. destruct Hi. apply poll_in_range; assumption.
  - destruct Hi as [Hg Ha].
    destruct (nth_error (trackers (history w)) n) as [ [ [c] | [c] ] | ];
      [ rewrite onFirstVisit_announcing | rewrite onFirstVisit_plain | exact Hw ].
    + change (?x :: ?t) with ([x] ++ t). rewrite replay_app.
      apply poll_in_range; assumption.
    + apply poll_in_range; assumption.
  - destruct Hi. unfold render_fetchSpots. rewrite replay_task.
    apply poll_in_range; assumption.
Qed.

Lemma run_in_range (w : World) (inputs : list Input) :
  Forall feed_in_range inputs -> counts_in_range (state w) ->
  counts_in_range (state (run w inputs)).
Proof.
  revert w. induction inputs as [ | i inputs IH ]; intros w Hall Hw.
  - exact Hw.
  - inversion Hall as [ | ? ? Hi Hrest ]; subst.
    apply IH; [ exact Hrest | apply step_in_range; assumption ].
Qed.

Lemma mount_state (token : TokenOutcome) (g a : Reply) (p : PushOutcome) :
  state (mount token g a p) = replay initial (events (fetchSpots false g a p)).
Proof.
  change (state (mount token g a p))
    with (replay initial (history (mount token g a p))).
  rewrite mount_history, !replay_app, (fetchSpots_head false g a p).
  destruct token; reflexivity.
Qed.

(** ** Who gets notified *)

(** An invocation notifies exactly when the render that created the
    closure was inside. *)
Lemma fetchSpots_pushes (c : bool) (g a : Reply) (p : PushOutcome) :
  filter is_push (events (fetchSpots c g a p)) =
  push_calls c (assigned "free_spots" g) (assigned "free_handicap_spots" a).
Proof.
  rewrite fetchSpots_events.
  split_reply g; split_reply a; destruct c; reflexivity.
Qed.

(** No tick of the timer ever notifies, whatever the state has become. *)
Lemma interval_never_notifies (token : TokenOutcome) (g0 a0 : Reply)
    (p0 : PushOutcome) (inputs : list Input) (g a : Reply) (p : PushOutcome) :
  filter is_push (react (run (mount token g0 a0 p0) inputs) (IntervalTick g a p)) = [].
Proof. rewrite react_interval. apply fetchSpots_pushes. Qed.

(** Nor does a call of [onFirstVisit]. *)
Lemma first_visit_never_notifies (token : TokenOutcome) (g0 a0 : Reply)
    (p0 : PushOutcome) (inputs : list Input) (g a : Reply) (p : PushOutcome) :
  filter is_push (react (run (mount token g0 a0 p0) inputs) (FirstVisitCall 0 g a p)) = [] /\
  filter is_push (react (run (mount token g0 a0 p0) inputs) (FirstVisitCall 1 g a p)) = [].
Proof.
  rewrite react_first_visit_0, react_first_visit_1. simpl filter.
  split; apply fetchSpots_pushes.
Qed.

(** The background task is the one caller that follows the state. *)
Lemma background_task_notifies_when_inside (w : World) (now : Z) (g a : Reply)
    (p : PushOutcome) :
  filter is_push (react w (BackgroundFetchCall now g a p)) =
  push_calls (isInside (state w))
    (assigned "free_spots" g) (assigned "free_handicap_spots" a).
Proof.
  unfold react, render_fetchSpots. rewrite background_fetch_task_closed.
  unfold events at 1. simpl snd.
  change (?x :: ?t ++ ?u) with ([x] ++ t ++ u).
  rewrite !filter_app, fetchSpots_pushes.
  destruct (settlement (fetchSpots (isInside (state w)) g a p));
    simpl; apply app_nil_r.
Qed.

(** Without a token nothing is sent to the server. *)
Lemma no_token_no_registration (g a : Reply) (p : PushOutcome) :
  filter is_server_request (history (mount TokenRejects g a p)) = [].
Proof.
  rewrite mount_filter; [ reflexivity | ].
  intros ev; destruct ev; simpl; congruence.
Qed.

(** * The claims *)

(** C1, as stated, fails: a mounted component shows 3 and 7; a timer tick
    whose general request answers [{free_spots: 5}] and whose accessible
    request fails leaves 5 and 0 on screen, not 5 and 7. *)
Lemma failed_request_zeroes_cached_count :
  let before :=
    mount (TokenResolves (JString "token"))
      (feed "free_spots" 3) (feed "free_handicap_spots" 7) PushResolves in
  let after :=
    step before (IntervalTick (feed "free_spots" 5) NetworkFailure PushResolves) in
  handicapSpots (state before) = JInt 7 /\
  spots (state after) = JInt 5 /\
  handicapSpots (state after) = JInt 0 /\
  handicapSpots (state after) <> handicapSpots (state before).
Proof.
  repeat split; try reflexivity. simpl. discriminate.
Qed.

(** C1, amended: in every invocation of [fetchSpots], whatever the state
    before, a sub-request that succeeds puts its count in the state, a
    sub-request that fails (network, body or parse failure) puts 0 there,
    and the failure of a request does not stop the call, which returns
    when no notification is due or the notification resolves; the general
    feed answering [{free_spots: 5}] with a network error on the accessible
    one gives general 5 and accessible 0. *)
Theorem fetchSpots_failed_count_is_zero :
  forall (st : AppState) (c : bool) (g a : Reply) (p : PushOutcome),
    let after := replay st (events (fetchSpots c g a p)) in
    spots after =
      match outcome "free_spots" g with inr v => v | inl _ => zero end /\
    handicapSpots after =
      match outcome "free_handicap_spots" a with inr v => v | inl _ => zero end /\
    settlement (fetchSpots false g a p) = Fulfilled tt /\
    settlement (fetchSpots c g a PushResolves) = Fulfilled tt /\
    spots (replay st (events (fetchSpots c (feed "free_spots" 5) NetworkFailure p)))
      = JInt 5 /\
    handicapSpots
      (replay st (events (fetchSpots c (feed "free_spots" 5) NetworkFailure p)))
      = zero.
Proof.
  intros st c g a p after. subst after.
  rewrite !replay_fetchSpots, !fetchSpots_settlement.
  repeat split; destruct c; reflexivity.
Qed.

(** C2 on the code, at the failing input: the component is mounted, the
    location service reports that the user is inside, the timer fires and
    both requests succeed.  The state says inside, and the poll sends no
    notification: the timer holds the [fetchSpots] of the first render,
    whose [isInside] is [false]. *)
Theorem interval_poll_inside_sends_nothing :
  let w :=
    run (mount (TokenResolves (JString "token"))
           (feed "free_spots" 3) (feed "free_handicap_spots" 7) PushResolves)
        [LocationChange true] in
  let poll :=
    react w (IntervalTick (feed "free_spots" 5) (feed "free_handicap_spots" 2)
               PushResolves) in
  isInside (state w) = true /\
  filter is_setter poll = [SetSpots (JInt 5); SetHandicapSpots (JInt 2)] /\
  filter is_push poll = [].
Proof. repeat split. Qed.

(** C3, as stated, fails: the component shows 3 and 7; after a timer tick
    on which both requests fail it shows 0 and 0; and a feed that answers
    [{free_spots: -1}] puts -1 on screen. *)
Lemma failed_poll_resets_both_counts :
  let before :=
    mount TokenRejects (feed "free_spots" 3) (feed "free_handicap_spots" 7)
      PushResolves in
  let after := step before (IntervalTick NetworkFailure NetworkFailure PushResolves) in
  let below :=
    step before (IntervalTick (feed "free_spots" (-1)) NetworkFailure PushResolves) in
  spots (state before) = JInt 3 /\
  handicapSpots (state before) = JInt 7 /\
  spots (state after) = JInt 0 /\
  handicapSpots (state after) = JInt 0 /\
  spots (state below) = JInt (-1) /\
  nonneg_integer (spots (state below)) = false.
Proof. repeat split. Qed.

(** C3, amended: for every sequence of inputs in which each count that a
    request delivers is a non-negative integer, both counts of the state
    are non-negative integers after every input; a sub-request that fails
    sets its count to 0. *)
Theorem counts_stay_in_range :
  forall (token : TokenOutcome) (g a : Reply) (p : PushOutcome)
         (inputs : list Input),
    count_in_range "free_spots" g ->
    count_in_range "free_handicap_spots" a ->
    Forall feed_in_range inputs ->
    counts_in_range (state (run (mount token g a p) inputs)) /\
    (forall (st : AppState) (c : bool) (g' a' : Reply) (p' : PushOutcome) (e : JsError),
        (outcome "free_spots" g' = inl e ->
         spots (replay st (events (fetchSpots c g' a' p'))) = zero) /\
        (outcome "free_handicap_spots" a' = inl e ->
         handicapSpots (replay st (events (fetchSpots c g' a' p'))) = zero)).
Proof.
  intros token g a p inputs Hg Ha Hin. split.
  - apply run_in_range; [ exact Hin | ].
    rewrite mount_state. apply poll_in_range; assumption.
  - intros st c g' a' p' e. rewrite replay_fetchSpots. unfold assigned.
    split; intros H; simpl; rewrite H; reflexivity.
Qed.

(** C3, amended, on a run: a mount showing 3 and 7, a tick with a failed
    accessible request, an entry into the region and a background fetch. *)
Lemma counts_stay_in_range_witness :
  let inputs :=
    [IntervalTick (feed "free_spots" 5) NetworkFailure PushResolves;
     LocationChange true;
     BackgroundFetchCall 0 (feed "free_spots" 4) (feed "free_handicap_spots" 1)
       PushResolves] in
  count_in_range "free_spots" (feed "free_spots" 3) /\
  count_in_range "free_handicap_spots" (feed "free_handicap_spots" 7) /\
  Forall feed_in_range inputs /\
  counts_in_range
    (state (run (mount TokenRejects (feed "free_spots" 3)
                   (feed "free_handicap_spots" 7) PushResolves) inputs)).
Proof.
  intros inputs.
  assert (Hg : count_in_range "free_spots" (feed "free_spots" 3)) by reflexivity.
  assert (Ha : count_in_range "free_handicap_spots" (feed "free_handicap_spots" 7))
    by reflexivity.
  assert (Hin : Forall feed_in_range inputs)
    by (repeat constructor).
  split; [ exact Hg | ]. split; [ exact Ha | ]. split; [ exact Hin | ].
  exact (proj1 (counts_stay_in_range TokenRejects _ _ PushResolves inputs Hg Ha Hin)).
Defined.

(** C4, as stated, fails: a response with status 500 whose body is the
    JSON text of an error object is logged as fetched successfully and no
    error is logged for it; and a [fetchSpots] of an inside render whose
    notification call rejects is itself rejected. *)
Lemma error_status_is_not_logged :
  let r :=
    fetchSpots false
      (answering 500 (JObject [("error", JString "unavailable")]))
      (feed "free_handicap_spots" 2) PushResolves in
  filter is_error_log (events r) = [] /\
  In (ConsoleLog "Data fetched successfully"
        [JObject [("error", JString "unavailable")]]) (events r) /\
  settlement
    (fetchSpots true (feed "free_spots" 5) (feed "free_handicap_spots" 2) PushRejects)
  = Rejected PushError.
Proof.
  repeat split. right. left. reflexivity.
Qed.

(** C4, amended: whatever the two requests answer, as long as the counts
    they leave can be displayed, a failure inside a request chain (network
    failure, unreadable body, malformed body, a [null] body) never reaches
    the caller of [fetchSpots]: the call is fulfilled whenever it has no
    notification to send or the notification resolves, and each failed
    chain is logged once with [console.error] by its own [.catch].  The
    status plays no part: a non-success status is not a failure of the
    chain and is not logged as one. *)
Theorem fetchSpots_catches_chain_failures :
  forall (c : bool) (g a : Reply) (p : PushOutcome),
    displayable (assigned "free_spots" g) = true ->
    displayable (assigned "free_handicap_spots" a) = true ->
    settlement (fetchSpots false g a p) = Fulfilled tt /\
    settlement (fetchSpots c g a PushResolves) = Fulfilled tt /\
    filter is_error_log (events (fetchSpots c g a p)) =
      chain_errors "free_spots" g ++ chain_errors "free_handicap_spots" a /\
    (forall (name : string) (s s' : Z) (b : option Text),
        chain_errors name (Replied {| status := s; body := b |}) =
        chain_errors name (Replied {| status := s'; body := b |})).
Proof.
  intros c g a p _ _. rewrite !fetchSpots_settlement, fetchSpots_events.
  repeat split; try (destruct c; reflexivity).
  split_reply g; split_reply a; destruct c; reflexivity.
Qed.

(** C4, amended, on a poll whose general request fails. *)
Lemma fetchSpots_catches_chain_failures_witness :
  displayable (assigned "free_spots" NetworkFailure) = true /\
  displayable (assigned "free_handicap_spots" (feed "free_handicap_spots" 2)) = true /\
  settlement
    (fetchSpots true NetworkFailure (feed "free_handicap_spots" 2) PushResolves)
  = Fulfilled tt.
Proof.
  split; [ reflexivity | ]. split; [ reflexivity | ].
  exact (proj1 (proj2 (fetchSpots_catches_chain_failures true NetworkFailure
                         (feed "free_handicap_spots" 2) PushResolves
                         eq_refl eq_refl))).
Defined.

(** C5 on the code, at the failing input: the component is mounted, the
    location service reports that the user is inside and then calls
    [onFirstVisit]; both requests succeed.  Either callback polls at once
    and writes 5 and 2 to the state, but with the state saying inside it
    sends no notification: it runs the [fetchSpots] of the first render,
    whose [isInside] is [false]. *)
Theorem first_visit_inside_sends_nothing :
  let w :=
    run (mount (TokenResolves (JString "token"))
           (feed "free_spots" 3) (feed "free_handicap_spots" 7) PushResolves)
        [LocationChange true] in
  let g := feed "free_spots" 5 in
  let a := feed "free_handicap_spots" 2 in
  isInside (state w) = true /\
  react w (FirstVisitCall 0 g a PushResolves) =
    [ConsoleLog "Trigger push notification" [];
     Fetch REACT_PARKINGSPOTS_URL None;
     ConsoleLog "Data fetched successfully" [JObject [("free_spots", JInt 5)]];
     Fetch REACT_HANDICAP_PARKINGSPOTS_URL None;
     ConsoleLog "Data fetched successfully" [JObject [("free_handicap_spots", JInt 2)]];
     SetSpots (JInt 5);
     SetHandicapSpots (JInt 2)] /\
  react w (FirstVisitCall 1 g a PushResolves) =
    [Fetch REACT_PARKINGSPOTS_URL None;
     ConsoleLog "Data fetched successfully" [JObject [("free_spots", JInt 5)]];
     Fetch REACT_HANDICAP_PARKINGSPOTS_URL None;
     ConsoleLog "Data fetched successfully" [JObject [("free_handicap_spots", JInt 2)]];
     SetSpots (JInt 5);
     SetHandicapSpots (JInt 2)].
Proof. repeat split. Qed.

(** C6: mounting hands [fetchSpots] to [setInterval] with a period of
    10000 ms, once, and registers the task [background-fetch] with
    [minimumInterval: 1]; every later tick of that timer issues both
    requests and then writes both counts. *)
Theorem interval_polls_every_ten_seconds :
  forall (token : TokenOutcome) (g0 a0 : Reply) (p0 : PushOutcome)
         (inputs : list Input) (g a : Reply) (p : PushOutcome),
    let w := run (mount token g0 a0 p0) inputs in
    filter is_registration (history (mount token g0 a0 p0)) =
      [StartBackgroundLocationTracking (Announcing (render_fetchSpots initial));
       SetInterval (render_fetchSpots initial) 10000;
       StartBackgroundLocationTracking (Plain (render_fetchSpots initial))] /\
    In (RegisterTaskAsync "background-fetch" 1) (history (mount token g0 a0 p0)) /\
    intervals (history w) = [render_fetchSpots initial] /\
    filter (fun ev => is_request ev || is_setter ev) (react w (IntervalTick g a p)) =
      [Fetch REACT_PARKINGSPOTS_URL None;
       Fetch REACT_HANDICAP_PARKINGSPOTS_URL None;
       SetSpots (assigned "free_spots" g);
       SetHandicapSpots (assigned "free_handicap_spots" a)].
Proof.
  intros token g0 a0 p0 inputs g a p w. subst w.
  rewrite react_interval, run_intervals.
  repeat split.
  - rewrite mount_filter.
    + destruct token; reflexivity.
    + intros ev; destruct ev; simpl; congruence.
  - rewrite mount_history. apply in_or_app. left.
    right. right. right. left. reflexivity.
  - rewrite fetchSpots_events. split_reply g; split_reply a; reflexivity.
Qed.


(** C8: in every run of the mounted component,
    [registerForPushNotificationsAsync] is called once and, with the token
    [t] it resolves to, exactly one request goes to [SERVER_URL]: a POST
    whose body is the JSON text of [{token: t}]; no input leads to
    another one. *)
Theorem token_registered_once :
  forall (t : JsValue) (g0 a0 : Reply) (p0 : PushOutcome) (inputs : list Input),
    let w := run (mount (TokenResolves t) g0 a0 p0) inputs in
    filter is_token_call (history w) = [RegisterForPushNotificationsAsync] /\
    filter is_server_request (history w) =
      [Fetch REACT_SERVER_URL
         (Some {| method := "POST";
                  headers := [("Content-Type", "application/json")];
                  payload := JSON_stringify (JObject [("token", t)]) |})].
Proof.
  intros t g0 a0 p0 inputs w. subst w.
  destruct (run_history (mount (TokenResolves t) g0 a0 p0) inputs)
    as [later [Hh Hfree]].
  rewrite Hh, !filter_app.
  rewrite (startup_filter_nil is_token_call later),
    (startup_filter_nil is_server_request later),
    (mount_filter is_token_call), (mount_filter is_server_request);
    try exact Hfree;
    try (intros ev; destruct ev; simpl; congruence).
  split; reflexivity.
Qed.

(** C9: in every invocation of [fetchSpots], from whatever state, the
    values written with [setSpots] and [setHandicapSpots] are the ones
    handed to [schedulePushNotification] when it is called, and they are
    the counts of the state after the invocation. *)
Theorem fetchSpots_notifies_what_it_displays :
  forall (st : AppState) (c : bool) (g a : Reply) (p : PushOutcome),
  exists s h : JsValue,
    filter is_setter (events (fetchSpots c g a p)) =
      [SetSpots s; SetHandicapSpots h] /\
    filter is_push (events (fetchSpots c g a p)) =
      (if c then [SchedulePushNotification s h] else []) /\
    spots (replay st (events (fetchSpots c g a p))) = s /\
    handicapSpots (replay st (events (fetchSpots c g a p))) = h.
Proof.
  intros st c g a p.
  exists (assigned "free_spots" g), (assigned "free_handicap_spots" a).
  rewrite replay_fetchSpots, fetchSpots_events.
  repeat split; split_reply g; split_reply a; destruct c; reflexivity.
Qed.

(** C10: the background task is always fulfilled; it returns [NewData]
    exactly when its [fetchSpots] is fulfilled, which no answer of the two
    requests prevents: it returns [Failed] only when the closure is one of
    an inside render and the notification call rejects. *)
Theorem background_task_reports_new_data :
  forall (c : bool) (now : Z) (g a : Reply) (p : PushOutcome),
    settlement (background_fetch_task (FetchSpotsOf c) now g a p tt) =
      Fulfilled (if fulfilled (settlement (fetchSpots c g a p))
                 then NewData else Failed) /\
    settlement (background_fetch_task (FetchSpotsOf c) now g a PushResolves tt) =
      Fulfilled NewData /\
    settlement (background_fetch_task (FetchSpotsOf false) now g a p tt) =
      Fulfilled NewData /\
    settlement (background_fetch_task (FetchSpotsOf c) now g a p tt) =
      Fulfilled (match c, p with true, PushRejects => Failed | _, _ => NewData end).
Proof.
  intros c now g a p.
  assert (H : forall c' p',
             settlement (background_fetch_task (FetchSpotsOf c') now g a p' tt) =
             Fulfilled (task_result (push_settlement c' p'))).
  { intros c' p'. rewrite background_fetch_task_closed, fetchSpots_settlement.
    reflexivity. }
  rewrite !H, fetchSpots_settlement.
  destruct c, p; repeat split.
Qed.

(** * Further properties of the component *)

(** ** The state after one input *)

Lemma replay_polled (st : AppState) (c : bool) (g a : Reply) (p : PushOutcome) :
  replay st (events (fetchSpots c g a p)) = polled st g a.
Proof. apply replay_fetchSpots. Qed.

Lemma step_state (w : World) (i : Input) :
  state (step w i) =
  match i with
  | IntervalTick g a _ =>
      match intervals (history w) with
      | _ :: _ => polled (state w) g a
      | [] => state w
      end
  | FirstVisitCall n g a _ =>
      match nth_error (trackers (history w)) n with
      | Some _ => polled (state w) g a
      | None => state w
      end
  | LocationChange b => apply (state w) (SetIsInside b)
  | LocationUpdate l => apply (state w) (SetUserLocation l)
  | BackgroundFetchCall _ g a _ => polled (state w) g a
  | PressButton => apply (state w) (SetModalVisible (negb (modalVisible (state w))))
  end.
Proof.
  unfold step. cbn [state].
  destruct i as [g a p | n g a p | b | l | now g a p | ]; cbn [react];
    try reflexivity.
  - destruct (intervals (history w)) as [ | [c] rest ]; [ reflexivity | ].
    rewrite invoke_run. apply replay_polled.
  - destruct (nth_error (trackers (history w)) n) as [ [ [c] | [c] ] | ];
      [ rewrite onFirstVisit_announcing | rewrite onFirstVisit_plain | reflexivity ].
    + change (?x :: ?t) with ([x] ++ t). rewrite replay_app. apply replay_polled.
    + apply replay_polled.
  - unfold render_fetchSpots. rewrite replay_task. apply replay_polled.
Qed.

Lemma step_isInside (w : World) (i : Input) :
  isInside (state (step w i)) = inside_after (isInside (state w)) i.
Proof.
  rewrite step_state. destruct i as [g a p | n g a p | b | l | now g a p | ];
    try reflexivity.
  - destruct (intervals (history w)); reflexivity.
  - destruct (nth_error (trackers (history w)) n); reflexivity.
Qed.

Lemma step_userLocation (w : World) (i : Input) :
  userLocation (state (step w i)) = location_after (userLocation (state w)) i.
Proof.
  rewrite step_state. destruct i as [g a p | n g a p | b | l | now g a p | ];
    try reflexivity.
  - destruct (intervals (history w)); reflexivity.
  - destruct (nth_error (trackers (history w)) n); reflexivity.
Qed.

Lemma step_modalVisible (w : World) (i : Input) :
  modalVisible (state (step w i)) =
  if is_press i then negb (modalVisible (state w)) else modalVisible (state w).
Proof.
  rewrite step_state. destruct i as [g a p | n g a p | b | l | now g a p | ];
    try reflexivity.
  - destruct (intervals (history w)); reflexivity.
  - destruct (nth_error (trackers (history w)) n); reflexivity.
Qed.

Lemma run_isInside (w : World) (inputs : list Input) :
  isInside (state (run w inputs)) = fold_left inside_after inputs (isInside (state w)).
Proof.
  revert w. induction inputs as [ | i inputs IH ]; intros w; [ reflexivity | ].
  simpl. change (fold_left step inputs (step w i)) with (run (step w i) inputs).
  rewrite IH, step_isInside. reflexivity.
Qed.

Lemma run_userLocation (w : World) (inputs : list Input) :
  userLocation (state (run w inputs)) =
  fold_left location_after inputs (userLocation (state w)).
Proof.
  revert w. induction inputs as [ | i inputs IH ]; intros w; [ reflexivity | ].
  simpl. change (fold_left step inputs (step w i)) with (run (step w i) inputs).
  rewrite IH, step_userLocation. reflexivity.
Qed.

Lemma run_modalVisible (w : World) (inputs : list Input) :
  modalVisible (state (run w inputs)) =
  xorb (Nat.odd (presses inputs)) (modalVisible (state w)).
Proof.
  revert w. induction inputs as [ | i inputs IH ]; intros w.
  - simpl. reflexivity.
  - simpl. change (fold_left step inputs (step w i)) with (run (step w i) inputs).
    rewrite IH, step_modalVisible. unfold presses. simpl filter.
    destruct (is_press i); [ | reflexivity ].
    cbn [List.length]. rewrite Nat.odd_succ, <- Nat.negb_odd.
    destruct (Nat.odd (List.length (filter is_press inputs))),
      (modalVisible (state w)); reflexivity.
Qed.

Lemma mount_polled (token : TokenOutcome) (g a : Reply) (p : PushOutcome) :
  state (mount token g a p) = polled initial g a.
Proof. rewrite mount_state. apply replay_polled. Qed.

(** ** The state cells over a run *)

(** X1: after any run of the mounted component, [isInside] is the last
    value the location service passed to the location-change callback,
    and [false] if it never called it: no poll, task or button writes
    it. *)
Theorem isInside_is_last_report :
  forall (token : TokenOutcome) (g a : Reply) (p : PushOutcome) (inputs : list Input),
    isInside (state (run (mount token g a p) inputs)) = reported_inside inputs.
Proof.
  intros token g a p inputs. rewrite run_isInside, mount_polled. reflexivity.
Qed.

(** X2: after any run, [userLocation] is the last location the location
    service reported, and [null] before the first one. *)
Theorem userLocation_is_last_report :
  forall (token : TokenOutcome) (g a : Reply) (p : PushOutcome) (inputs : list Input),
    userLocation (state (run (mount token g a p) inputs)) = reported_location inputs.
Proof.
  intros token g a p inputs. rewrite run_userLocation, mount_polled. reflexivity.
Qed.

(** X3: the map modal is visible exactly when the button has been pressed
    an odd number of times; nothing else opens or closes it. *)
Theorem modal_follows_press_parity :
  forall (token : TokenOutcome) (g a : Reply) (p : PushOutcome) (inputs : list Input),
    modalVisible (state (run (mount token g a p) inputs)) = Nat.odd (presses inputs).
Proof.
  intros token g a p inputs. rewrite run_modalVisible, mount_polled.
  apply xorb_false_r.
Qed.

(** ** What the drivers hold *)

Lemma wired_mount (token : TokenOutcome) (g a : Reply) (p : PushOutcome) :
  wired (mount token g a p).
Proof. split; [ apply mount_intervals | apply mount_trackers ]. Qed.

Lemma wired_step (w : World) (i : Input) : wired w -> wired (step w i).
Proof.
  intros [Hi Ht]. unfold wired, step. cbn [history].
  rewrite intervals_app, trackers_app, Hi, Ht.
  rewrite (intervals_startup_free _ (react_startup_free w i)).
  rewrite (trackers_startup_free _ (react_startup_free w i)).
  split; reflexivity.
Qed.

Lemma wired_run (w : World) (inputs : list Input) : wired w -> wired (run w inputs).
Proof.
  revert w. induction inputs as [ | i inputs IH ]; intros w Hw; [ exact Hw | ].
  apply (IH (step w i)), wired_step, Hw.
Qed.

Lemma wired_react_pushes (w : World) (i : Input) :
  wired w ->
  filter is_push (react w i) =
  match i with
  | BackgroundFetchCall _ g a _ =>
      push_calls (isInside (state w))
        (assigned "free_spots" g) (assigned "free_handicap_spots" a)
  | _ => []
  end.
Proof.
  intros [Hi Ht].
  destruct i as [g a p | n g a p | b | l | now g a p | ]; try reflexivity.
  - unfold react. rewrite Hi, invoke_run. apply fetchSpots_pushes.
  - unfold react. rewrite Ht.
    destruct n as [ | [ | n ] ]; cbn [nth_error].
    + rewrite onFirstVisit_announcing. simpl filter. apply fetchSpots_pushes.
    + rewrite onFirstVisit_plain. apply fetchSpots_pushes.
    + destruct n; reflexivity.
  - apply background_task_notifies_when_inside.
Qed.

Lemma notifications_of_run (w : World) (inputs : list Input) :
  wired w ->
  filter is_push (history (run w inputs)) =
  filter is_push (history w) ++ notifications (isInside (state w)) inputs.
Proof.
  revert w. induction inputs as [ | i inputs IH ]; intros w Hw.
  - simpl. symmetry. apply app_nil_r.
  - simpl run. change (fold_left step inputs (step w i)) with (run (step w i) inputs).
    rewrite (IH (step w i) (wired_step w i Hw)), step_isInside.
    unfold step at 1. cbn [history].
    rewrite filter_app, (wired_react_pushes w i Hw), <- app_assoc.
    destruct i; reflexivity.
Qed.

Lemma lookup_absent (name : string) (fields : list (string * JsValue)) :
  has_key name fields = false -> lookup name fields = JUndefined.
Proof.
  induction fields as [ | [k v] rest IH ]; simpl; intros H; [ reflexivity | ].
  apply orb_false_elim in H. destruct H as [Hk Hrest].
  rewrite Hk. apply IH, Hrest.
Qed.

Lemma lacks_outcome (name : string) (st : Z) (data : JsValue) :
  lacks name data = true -> outcome name (answering st data) = inr JUndefined.
Proof.
  destruct data; simpl; intros H; try discriminate; try reflexivity.
  rewrite lookup_absent; [ reflexivity | ].
  apply negb_true_iff, H.
Qed.

Lemma truthy_get_prop (v : JsValue) (name : string) :
  truthy v = true -> exists x, get_prop v name = inr x.
Proof.
  destruct v; simpl; intros H; try discriminate; eexists; reflexivity.
Qed.

(** ** Polls *)

(** X4: whoever starts it (the mount, the timer, either first-visit
    callback or the background task), a poll overwrites both counts with
    what its own two requests delivered and leaves the other three cells
    alone: the counts on screen are those of the last poll, never a mix
    with older ones. *)
Theorem every_driver_overwrites_counts :
  forall (token : TokenOutcome) (g0 a0 : Reply) (p0 : PushOutcome)
         (inputs : list Input) (now : Z) (g a : Reply) (p : PushOutcome),
    let w := run (mount token g0 a0 p0) inputs in
    state (mount token g0 a0 p0) = polled initial g0 a0 /\
    state (step w (IntervalTick g a p)) = polled (state w) g a /\
    state (step w (FirstVisitCall 0 g a p)) = polled (state w) g a /\
    state (step w (FirstVisitCall 1 g a p)) = polled (state w) g a /\
    state (step w (BackgroundFetchCall now g a p)) = polled (state w) g a.
Proof.
  intros token g0 a0 p0 inputs now g a p w.
  split; [ apply mount_polled | ].
  rewrite !step_state. subst w. rewrite run_intervals, run_trackers.
  repeat split.
Qed.

(** X5: handling the same input twice in a row leaves the state that
    handling it once leaves, for every input but a button press (polls
    included, whatever they answered); two button presses in a row leave
    the state as it was. *)
Theorem repeated_input_changes_nothing :
  forall (w : World) (i : Input),
    is_press i = false ->
    state (step (step w i) i) = state (step w i) /\
    state (step (step w PressButton) PressButton) = state w.
Proof.
  intros w i Hi. split.
  - rewrite (step_state (step w i)).
    assert (Hint : intervals (history (step w i)) = intervals (history w)).
    { unfold step. cbn [history]. rewrite intervals_app.
      rewrite (intervals_startup_free _ (react_startup_free w i)). apply app_nil_r. }
    assert (Htr : trackers (history (step w i)) = trackers (history w)).
    { unfold step. cbn [history]. rewrite trackers_app.
      rewrite (trackers_startup_free _ (react_startup_free w i)). apply app_nil_r. }
    rewrite Hint, Htr, step_state.
    destruct i as [g a p | n g a p | b | l | now g a p | ];
      try reflexivity; try discriminate.
    + destruct (intervals (history w)); reflexivity.
    + destruct (nth_error (trackers (history w)) n); reflexivity.
  - rewrite !step_state. destruct (state w) as [s h m u ins]. simpl.
    rewrite negb_involutive. reflexivity.
Qed.

Lemma repeated_input_changes_nothing_witness :
  is_press (IntervalTick (feed "free_spots" 5) NetworkFailure PushResolves) = false /\
  state
    (step (step (mount TokenRejects NetworkFailure NetworkFailure PushResolves)
             (IntervalTick (feed "free_spots" 5) NetworkFailure PushResolves))
       (IntervalTick (feed "free_spots" 5) NetworkFailure PushResolves)) =
  state
    (step (mount TokenRejects NetworkFailure NetworkFailure PushResolves)
       (IntervalTick (feed "free_spots" 5) NetworkFailure PushResolves)).
Proof.
  split; [ reflexivity | ].
  exact (proj1 (repeated_input_changes_nothing
                  (mount TokenRejects NetworkFailure NetworkFailure PushResolves)
                  (IntervalTick (feed "free_spots" 5) NetworkFailure PushResolves)
                  eq_refl)).
Defined.

(** X6: [fetchSpots] never looks at the HTTP status: two responses with
    the same body and different statuses (a 200 and a 500, say) lead to
    the same calls, the same counts and the same settlement, on either
    endpoint. *)
Theorem fetchSpots_ignores_status :
  forall (c : bool) (s1 s2 : Z) (b : option Text) (other : Reply) (p : PushOutcome),
    fetchSpots c (Replied {| status := s1; body := b |}) other p =
    fetchSpots c (Replied {| status := s2; body := b |}) other p /\
    fetchSpots c other (Replied {| status := s1; body := b |}) p =
    fetchSpots c other (Replied {| status := s2; body := b |}) p.
Proof.
  intros c s1 s2 b other p. rewrite !fetchSpots_closed.
  destruct b as [ [ | data ] | ]; split; reflexivity.
Qed.

(** X7: a body that parses to a value without the expected field (an
    object lacking the key, such as an error object, or a boolean, number,
    string or array) is not treated as a failure: the count shown becomes
    [undefined], which is no count, and that chain logs no error. *)
Theorem missing_field_shows_undefined :
  forall (st : AppState) (c : bool) (s : Z) (data : JsValue) (a : Reply)
         (p : PushOutcome),
    lacks "free_spots" data = true ->
    let r := fetchSpots c (answering s data) a p in
    spots (replay st (events r)) = JUndefined /\
    nonneg_integer (spots (replay st (events r))) = false /\
    filter is_error_log (events r) = chain_errors "free_handicap_spots" a.
Proof.
  intros st c s data a p H r. subst r.
  assert (Hspots : spots (replay st (events (fetchSpots c (answering s data) a p)))
                   = JUndefined).
  { rewrite replay_fetchSpots. cbn [spots]. unfold assigned.
    rewrite (lacks_outcome _ _ _ H). reflexivity. }
  rewrite Hspots. split; [ reflexivity | ]. split; [ reflexivity | ].
  rewrite fetchSpots_events.
  change (?x :: ?y :: ?t) with ([x; y] ++ t). rewrite !filter_app.
  assert (Hg : filter is_error_log
                 (chain_calls REACT_PARKINGSPOTS_URL "free_spots" (answering s data)) = []).
  { unfold chain_calls. rewrite (lacks_outcome _ _ _ H). reflexivity. }
  assert (Ha : filter is_error_log
                 (chain_calls REACT_HANDICAP_PARKINGSPOTS_URL "free_handicap_spots" a)
               = chain_errors "free_handicap_spots" a).
  { split_reply a; reflexivity. }
  rewrite Hg, Ha. destruct c; simpl; apply app_nil_r.
Qed.

Lemma missing_field_shows_undefined_witness :
  lacks "free_spots" (JObject [("error", JString "unavailable")]) = true /\
  spots
    (replay initial
       (events (fetchSpots false
                  (answering 500 (JObject [("error", JString "unavailable")]))
                  NetworkFailure PushResolves))) = JUndefined.
Proof.
  split; [ reflexivity | ].
  exact (proj1 (missing_field_shows_undefined initial false 500
                  (JObject [("error", JString "unavailable")])
                  NetworkFailure PushResolves eq_refl)).
Defined.

(** X8: a body that is the JSON text [null] is first logged as fetched
    successfully and then, [data.free_spots] throwing a TypeError, logged
    as an error by the same chain; the count shown is 0. *)
Theorem null_body_logs_success_then_error :
  forall (st : AppState) (c : bool) (s : Z) (a : Reply) (p : PushOutcome),
    let r := fetchSpots c (answering s JNull) a p in
    exists rest : list Event,
      events r =
        [Fetch REACT_PARKINGSPOTS_URL None;
         ConsoleLog "Data fetched successfully" [JNull];
         ConsoleError "Error fetching data" TypeError] ++ rest /\
      spots (replay st (events r)) = zero.
Proof.
  intros st c s a p r. subst r. rewrite replay_fetchSpots, fetchSpots_events.
  eexists. split; reflexivity.
Qed.

(** ** Registration and notifications over a run *)

(** X9: when [registerForPushNotificationsAsync] rejects, the function is
    still called exactly once and no request is ever sent to [SERVER_URL],
    at mount or in any later input: the failed registration is not
    retried. *)
Theorem rejected_token_is_never_posted :
  forall (g a : Reply) (p : PushOutcome) (inputs : list Input),
    let w := run (mount TokenRejects g a p) inputs in
    filter is_token_call (history w) = [RegisterForPushNotificationsAsync] /\
    filter is_server_request (history w) = [].
Proof.
  intros g a p inputs w. subst w.
  destruct (run_history (mount TokenRejects g a p) inputs) as [later [Hh Hfree]].
  rewrite Hh, !filter_app, no_token_no_registration.
  rewrite (startup_filter_nil is_token_call later),
    (startup_filter_nil is_server_request later), (mount_filter is_token_call);
    try exact Hfree; try (intros ev; destruct ev; simpl; congruence).
  split; reflexivity.
Qed.

(** X10: the notifications a mounted component sends over a whole run are
    exactly those of the background fetches that happen while the last
    location report says inside, each carrying the two counts of its own
    poll; the mount poll, the timer ticks and the first-visit calls
    contribute none. *)
Theorem notifications_come_from_background_fetches :
  forall (token : TokenOutcome) (g a : Reply) (p : PushOutcome) (inputs : list Input),
    filter is_push (history (run (mount token g a p) inputs)) =
    notifications false inputs.
Proof.
  intros token g a p inputs.
  rewrite (notifications_of_run _ inputs (wired_mount token g a p)), mount_polled.
  cbn [isInside polled initial].
  rewrite mount_history, !filter_app.
  assert (Hrest : filter is_push (tl (events (fetchSpots false g a p))) = []).
  { pose proof (fetchSpots_pushes false g a p) as H.
    rewrite fetchSpots_head in H. exact H. }
  rewrite Hrest. destruct token; reflexivity.
Qed.

(** X11: the background task logs its start first, runs one poll, and ends
    with a single report line that agrees with what it returns: the
    success line with [NewData], the failure line (carrying the
    notification error) with [Failed]. *)
Theorem background_task_log_matches_result :
  forall (c : bool) (now : Z) (g a : Reply) (p : PushOutcome),
    let r := background_fetch_task (FetchSpotsOf c) now g a p tt in
    events r =
      ConsoleLog "Got background fetch call at date: " [JInt now] ::
      events (fetchSpots c g a p) ++
      [match settlement r with
       | Fulfilled NewData =>
           ConsoleLog "Background fetch task completed successfully" []
       | _ => ConsoleError "Background fetch task failed:" PushError
       end].
Proof.
  intros c now g a p r. subst r.
  rewrite background_fetch_task_closed. unfold events at 1, settlement at 1.
  cbn [fst snd]. rewrite fetchSpots_settlement.
  destruct c, p; reflexivity.
Qed.

(** ** Rendering *)

Lemma located_defined (u geofence : JsValue) (name : string) :
  truthy geofence = true -> exists x, located u geofence name = inr x.
Proof.
  intros H. unfold located. destruct (truthy u) eqn:E;
    apply truthy_get_prop; assumption.
Qed.

(** X12: building the tree never throws, whatever [geofence] and the state
    are: [geofence.latitude] and the like are only read under
    [geofence && ...], and [userLocation.latitude] only when
    [userLocation] is truthy.  The map is part of the tree exactly when
    [geofence] is truthy, and the two texts are the two counts. *)
Theorem render_never_throws :
  forall (geofence : JsValue) (st : AppState),
  exists screen : Screen,
    render geofence st = inr screen /\
    (match map screen with Some _ => true | None => false end) = truthy geofence /\
    spots_text screen = spots st /\
    handicap_text screen = handicapSpots st.
Proof.
  intros geofence st. unfold render, render_map.
  destruct (truthy geofence) eqn:Eg.
  - destruct (located_defined (userLocation st) geofence "latitude" Eg) as [lat Hlat].
    destruct (located_defined (userLocation st) geofence "longitude" Eg) as [lng Hlng].
    destruct (truthy_get_prop geofence "latitude" Eg) as [glat Hglat].
    destruct (truthy_get_prop geofence "longitude" Eg) as [glng Hglng].
    destruct (truthy_get_prop geofence "radius" Eg) as [r Hr].
    unfold region_of. rewrite Hlat, Hlng, Hglat, Hglng, Hr. cbn [and_then].
    eexists. repeat split.
  - cbn [and_then]. eexists. repeat split.
Qed.

(** X13: when the map is rendered, the "My Location" marker sits at the
    centre of both [region] and [initialRegion], which are equal and have
    the fixed spans 0.0922 and 0.0421; as long as no truthy location is
    known, that centre is the geofence centre, where the "Target Location"
    marker sits. *)
Theorem map_is_centred_on_the_user :
  forall (geofence : JsValue) (st : AppState) (screen : Screen) (m : MapView),
    render geofence st = inr screen ->
    map screen = Some m ->
    coordinate (my_location m) = (latitude (region m), longitude (region m)) /\
    initialRegion m = region m /\
    latitudeDelta (region m) = 922 # 10000 /\
    longitudeDelta (region m) = 421 # 10000 /\
    (truthy (userLocation st) = false ->
     coordinate (my_location m) = coordinate (target_location m)).
Proof.
  intros geofence st screen m Hrender Hmap.
  unfold render, render_map in Hrender.
  destruct (truthy geofence) eqn:Eg.
  - destruct (located_defined (userLocation st) geofence "latitude" Eg) as [lat Hlat].
    destruct (located_defined (userLocation st) geofence "longitude" Eg) as [lng Hlng].
    destruct (truthy_get_prop geofence "latitude" Eg) as [glat Hglat].
    destruct (truthy_get_prop geofence "longitude" Eg) as [glng Hglng].
    destruct (truthy_get_prop geofence "radius" Eg) as [r Hr].
    unfold region_of in Hrender.
    rewrite Hlat, Hlng, Hglat, Hglng, Hr in Hrender. cbn [and_then] in Hrender.
    inversion Hrender; subst screen. cbn [map] in Hmap.
    inversion Hmap; subst m. cbn.
    repeat split.
    intros Hu. unfold located in Hlat, Hlng. rewrite Hu in Hlat, Hlng.
    congruence.
  - cbn [and_then] in Hrender. inversion Hrender; subst screen.
    discriminate Hmap.
Qed.

Lemma map_is_centred_on_the_user_witness :
  exists (screen : Screen) (m : MapView),
    render (JObject [("latitude", JNumber (602 # 10));
                     ("longitude", JNumber (2496 # 100));
                     ("radius", JInt 50)]) initial = inr screen /\
    map screen = Some m /\
    coordinate (my_location m) = (JNumber (602 # 10), JNumber (2496 # 100)) /\
    coordinate (my_location m) = coordinate (target_location m).
Proof.
  eexists. eexists.
  split; [ reflexivity | ]. split; [ reflexivity | ]. split; [ reflexivity | ].
  refine (proj2 (proj2 (proj2 (proj2
            (map_is_centred_on_the_user
               (JObject [("latitude", JNumber (602 # 10));
                         ("longitude", JNumber (2496 # 100));
                         ("radius", JInt 50)])
               initial _ _ eq_refl eq_refl)))) eq_refl).
Defined.

(** ** What is set up, and when *)

(** X14: everything that is set up is set up while mounting and never
    again: over any run, the history holds one token call, the two starts
    of location tracking, one task registration, one timer and one
    notification listener, in this order, and after them the POST of the
    token if the token call resolved. *)
Theorem setup_happens_once_at_mount :
  forall (token : TokenOutcome) (g a : Reply) (p : PushOutcome) (inputs : list Input),
    filter is_startup (history (run (mount token g a p) inputs)) =
    [RegisterForPushNotificationsAsync;
     StartBackgroundLocationTracking (Announcing (FetchSpotsOf false));
     RegisterTaskAsync "background-fetch" 1;
     SetInterval (FetchSpotsOf false) 10000;
     StartBackgroundLocationTracking (Plain (FetchSpotsOf false));
     AddNotificationReceivedListener] ++
    match token with
    | TokenResolves t => [token_request t]
    | TokenRejects => []
    end.
Proof.
  intros token g a p inputs.
  destruct (run_history (mount token g a p) inputs) as [later [Hh Hfree]].
  rewrite Hh, filter_app.
  rewrite (startup_filter_nil is_startup later (fun ev H => H) Hfree), app_nil_r.
  rewrite (mount_filter is_startup _ _ _ _ (fun ev H => H)).
  destruct token; reflexivity.
Qed.

(** X15: the two requests of a poll are made one after the other, never
    together: the trace starts with the general request and everything
    its chain logs (its error included), and only then comes the
    accessible request, which is made whatever became of the first. *)
Theorem requests_are_sequential :
  forall (c : bool) (g a : Reply) (p : PushOutcome),
  exists general accessible rest : list Event,
    events (fetchSpots c g a p) =
      (Fetch REACT_PARKINGSPOTS_URL None :: general) ++
      (Fetch REACT_HANDICAP_PARKINGSPOTS_URL None :: accessible) ++ rest /\
    filter is_request general = [] /\
    filter is_request accessible = [] /\
    filter is_request rest = [] /\
    filter is_error_log general = chain_errors "free_spots" g /\
    filter is_error_log accessible = chain_errors "free_handicap_spots" a.
Proof.
  intros c g a p. rewrite fetchSpots_events.
  exists (tl (chain_calls REACT_PARKINGSPOTS_URL "free_spots" g)),
    (tl (chain_calls REACT_HANDICAP_PARKINGSPOTS_URL "free_handicap_spots" a)).
  eexists.
  split; [ reflexivity | ].
  repeat split; try (destruct c; reflexivity);
    try (split_reply g; reflexivity); split_reply a; reflexivity.
Qed.
